(** * Alluka: the injected-value descriptors of [alluka/_types.py]

    A shallow embedding of [InjectedCallback], [InjectedType] and
    [InjectedDescriptor], and the properties of their constructors and of
    the two resolution algorithms. *)

From Stdlib Require Import ZArith Ascii String.
From stdpp Require Import gmap strings list.

Open Scope string_scope.

(** ** Python values seen by the descriptors *)

(** A type expression: a runtime class (or any non-union type form), named
    by its qualified name, or a [typing.Union] / [A | B] form with its
    arguments in declaration order.  [typing] flattens nested unions, so the
    arguments of a union are never unions themselves. *)
Inductive pytype : Type :=
| Cls (qualname : string)
| Union (args : list string).

#[global] Instance pytype_eq_dec : EqDecision pytype.
Proof. solve_decision. Defined.

#[global] Instance pytype_countable : Countable pytype.
Proof.
  refine (inj_countable'
            (fun t => match t with Cls n => inl n | Union a => inr a end)
            (fun s => match s with inl n => Cls n | inr a => Union a end) _).
  by intros [].
Defined.

(** Objects.  [UNDEFINED] is the singleton [alluka.abc.UNDEFINED]; it is
    distinct from [PyNone]. *)
Inductive pyobj : Type :=
| UNDEFINED
| PyNone
| PyInt (z : Z)
| PyStr (s : string)
| PyType (t : pytype)
| PyInstance (cls : string) (ident : nat).

#[global] Instance pyobj_eq_dec : EqDecision pyobj.
Proof. solve_decision. Defined.

(** [x is abc.UNDEFINED]: identity with a singleton. *)
Definition is_UNDEFINED (x : pyobj) : bool :=
  match x with UNDEFINED => true | _ => false end.

(** A callable handed to the client; this module never calls it itself. *)
Inductive CallbackSig : Type :=
| Callable (qualname : string).

#[global] Instance CallbackSig_eq_dec : EqDecision CallbackSig.
Proof. solve_decision. Defined.

(** The builtin conversion applied to a replacement field of an f-string. *)
Class PyFormat := format_field : pyobj -> string.

(** ** Exceptions and outcomes *)

Inductive exn : Type :=
| ValueError (msg : string)
| MissingDependencyError (message : string) (dependency_type : pyobj)
| AsyncOnlyError
| AttributeError (name : string).

Inductive outcome (A : Type) : Type :=
| Return (v : A)
| Raise (e : exn).
Arguments Return {A} v.
Arguments Raise {A} e.

Definition raises {A} (o : outcome A) : Prop := exists e, o = Raise e.

(** A coroutine object; awaiting it completes with its outcome. *)
Inductive Coroutine : Type :=
| Coro (completion : outcome pyobj).

Definition await (c : Coroutine) : outcome pyobj :=
  match c with Coro completion => completion end.

(** [await call()]: a call that raised raises; otherwise the coroutine it
    returned is awaited. *)
Definition awaited (o : outcome Coroutine) : outcome pyobj :=
  match o with
  | Return c => await c
  | Raise e => Raise e
  end.

(** ** The collaborators: [alluka.abc.Client] and [alluka.abc.Context] *)

Record Client (C : Type) : Type := {
  execute_with_ctx : C -> CallbackSig -> outcome pyobj;
  execute_with_ctx_async : C -> CallbackSig -> outcome Coroutine;
}.
Arguments execute_with_ctx {C} _ _ _.
Arguments execute_with_ctx_async {C} _ _ _.

(** [get_type_dependency] returns the registered value or [UNDEFINED]. *)
Class Context (C : Type) : Type := {
  injection_client : C -> Client C;
  get_type_dependency : C -> pytype -> pyobj;
}.

(** The calls a method makes on the context and its client, in order. *)
Inductive ctx_call : Type :=
| GetTypeDependency (cls : pytype)
| ExecuteWithCtx (callback : CallbackSig)
| ExecuteWithCtxAsync (callback : CallbackSig).

(** ** Methods as computations over [self] and the call log *)

Record world (S : Type) : Type := World {
  self : S;
  calls : list ctx_call;
}.
Arguments World {S} _ _.
Arguments self {S} _.
Arguments calls {S} _.

Definition M (S A : Type) : Type := world S -> world S * outcome A.

Definition ret {S A} (v : A) : M S A := fun w => (w, Return v).

Definition raise {S A} (e : exn) : M S A := fun w => (w, Raise e).

Definition bind {S A B} (m : M S A) (k : A -> M S B) : M S B :=
  fun w =>
    match m w with
    | (w', Return v) => k v w'
    | (w', Raise e) => (w', Raise e)
    end.

Notation "x <- m ;;; k" := (bind m (fun x => k))
  (at level 100, m at next level, right associativity).

(** [self.attr] *)
Definition getattr {S A} (attr : S -> A) : M S A :=
  fun w => (w, Return (attr (self w))).

(** A call on the context: logged, then answered. *)
Definition call {S A} (c : ctx_call) (answer : outcome A) : M S A :=
  fun w => (World (self w) (calls w ++ [c]), answer).

(** Run a method on an object, starting from an empty call log. *)
Definition run {S A} (m : M S A) (obj : S) : world S * outcome A :=
  m (World obj []).

(** ** [class InjectedCallback] *)

Module InjectedCallback.

Record t : Type := { callback : CallbackSig }.

Definition __init__ (callback : CallbackSig) : outcome t :=
  Return {| callback := callback |}.

Definition resolve {C} `{Context C} (ctx : C) : M t pyobj :=
  cb <- getattr callback ;;;
  call (ExecuteWithCtx cb) (execute_with_ctx (injection_client ctx) ctx cb).

Definition resolve_async {C} `{Context C} (ctx : C) : M t Coroutine :=
  cb <- getattr callback ;;;
  call (ExecuteWithCtxAsync cb)
       (execute_with_ctx_async (injection_client ctx) ctx cb).

End InjectedCallback.

(** ** [class InjectedType] *)

Module InjectedType.

Record t : Type := {
  default : pyobj;
  repr_type : pyobj;
  types : list pytype;
}.

Definition __init__ (repr_type : pyobj) (types : list pytype) (default : pyobj)
  : outcome t :=
  Return {| default := default; repr_type := repr_type; types := types |}.

(** The [for cls in self.types] loop; [Some result] is the [return result]
    inside the loop, [None] is falling out of it. *)
Fixpoint for_cls {C} `{Context C} (ctx : C) (types : list pytype)
  : M t (option pyobj) :=
  match types with
  | [] => ret None
  | cls :: rest =>
      result <- call (GetTypeDependency cls)
                     (Return (get_type_dependency ctx cls)) ;;;
      if negb (is_UNDEFINED result) then ret (Some result)
      else for_cls ctx rest
  end.

Definition missing_message `{PyFormat} (repr_type : pyobj) : string :=
  "Couldn't resolve injected type(s) " ++ format_field repr_type
    ++ " to actual value".

Definition resolve {C} `{Context C} `{PyFormat} (ctx : C) : M t pyobj :=
  types <- getattr types ;;;
  found <- for_cls ctx types ;;;
  match found with
  | Some result => ret result
  | None =>
      default <- getattr default ;;;
      if negb (is_UNDEFINED default) then ret default
      else
        repr_type <- getattr repr_type ;;;
        raise (MissingDependencyError (missing_message repr_type) repr_type)
  end.

End InjectedType.

(** ** [class InjectedTypes(int, enum.Enum)] *)

Inductive InjectedTypes : Type :=
| CALLBACK
| TYPE.

(** [enum.auto()] numbers the members from 1. *)
Definition InjectedTypes_value (m : InjectedTypes) : Z :=
  match m with CALLBACK => 1 | TYPE => 2 end.

(** ** [class InjectedDescriptor] *)

Definition is_None {A} (x : option A) : bool :=
  match x with None => true | Some _ => false end.

Module InjectedDescriptor.

Record t : Type := {
  callback : option CallbackSig;
  type : option pytype;
}.

Definition __init__ (callback : option CallbackSig) (type : option pytype)
  : outcome t :=
  if is_None callback && is_None type then
    Raise (ValueError "Must specify one of `callback` or `type`")
  else if negb (is_None callback) && negb (is_None type) then
    Raise (ValueError "Only one of `callback` or `type` can be specified")
  else
    Return {| callback := callback; type := type |}.

(** Exactly one of the two slots is populated. *)
Definition exactly_one (d : t) : Prop :=
  (callback d <> None /\ type d = None)
  \/ (callback d = None /\ type d <> None).

End InjectedDescriptor.

(** ** Error messages up to letter case and code quoting *)

Definition lower_ascii (c : ascii) : ascii :=
  let n := nat_of_ascii c in
  if (65 <=? n)%nat && (n <=? 90)%nat then ascii_of_nat (n + 32) else c.

(** Lower-case a message and drop its backquotes. *)
Fixpoint plain_text (s : string) : string :=
  match s with
  | EmptyString => EmptyString
  | String c rest =>
      if Ascii.eqb c "`" then plain_text rest
      else String (lower_ascii c) (plain_text rest)
  end.

(** ** The objects of this module and the operations on them *)

Inductive object : Type :=
| ObjInjectedCallback (o : InjectedCallback.t)
| ObjInjectedType (o : InjectedType.t)
| ObjInjectedDescriptor (o : InjectedDescriptor.t).

Abbreviation loc := positive.
Abbreviation heap := (gmap positive object).

Inductive operation (C : Type) : Type :=
| NewInjectedCallback (callback : CallbackSig)
| NewInjectedType (repr_type : pyobj) (types : list pytype) (default : pyobj)
| NewInjectedDescriptor (callback : option CallbackSig) (type : option pytype)
| Resolve (target : loc) (ctx : C)
| ResolveAsync (target : loc) (ctx : C).
Arguments NewInjectedCallback {C} _.
Arguments NewInjectedType {C} _ _ _.
Arguments NewInjectedDescriptor {C} _ _.
Arguments Resolve {C} _ _.
Arguments ResolveAsync {C} _ _.

Inductive retval : Type :=
| RetObject (l : loc)
| RetValue (v : pyobj)
| RetCoroutine (c : Coroutine).

Definition outcome_map {A B} (f : A -> B) (o : outcome A) : outcome B :=
  match o with
  | Return v => Return (f v)
  | Raise e => Raise e
  end.

(** [Class(...)]: a new object is stored when [__init__] returns. *)
Definition construct {A} (wrap : A -> object) (made : outcome A) (h : heap)
  : heap * outcome retval :=
  match made with
  | Return o => let l := fresh (dom h) in (<[l := wrap o]> h, Return (RetObject l))
  | Raise e => (h, Raise e)
  end.

(** [obj.method(ctx)]: the object's slots after the call are written back. *)
Definition invoke {S A} (wrap : S -> object) (tag : A -> retval)
    (method : M S A) (target : loc) (o : S) (h : heap)
  : heap * outcome retval :=
  let '(w, r) := run method o in
  (<[target := wrap (self w)]> h, outcome_map tag r).

(** One operation on the store; [None] when [target] names no object. *)
Definition step {C} `{Context C} `{PyFormat} (h : heap) (op : operation C)
  : option (heap * outcome retval) :=
  match op with
  | NewInjectedCallback callback =>
      Some (construct ObjInjectedCallback (InjectedCallback.__init__ callback) h)
  | NewInjectedType repr_type types default =>
      Some (construct ObjInjectedType
              (InjectedType.__init__ repr_type types default) h)
  | NewInjectedDescriptor callback type =>
      Some (construct ObjInjectedDescriptor
              (InjectedDescriptor.__init__ callback type) h)
  | Resolve target ctx =>
      obj ← h !! target;
      Some match obj with
           | ObjInjectedCallback o =>
               invoke ObjInjectedCallback RetValue
                      (InjectedCallback.resolve ctx) target o h
           | ObjInjectedType o =>
               invoke ObjInjectedType RetValue
                      (InjectedType.resolve ctx) target o h
           | ObjInjectedDescriptor _ => (h, Raise (AttributeError "resolve"))
           end
  | ResolveAsync target ctx =>
      obj ← h !! target;
      Some match obj with
           | ObjInjectedCallback o =>
               invoke ObjInjectedCallback RetCoroutine
                      (InjectedCallback.resolve_async ctx) target o h
           | _ => (h, Raise (AttributeError "resolve_async"))
           end
  end.

(** A sequence of operations; the outcomes are dropped, the store is kept. *)
Fixpoint exec {C} `{Context C} `{PyFormat} (h : heap) (ops : list (operation C))
  : option heap :=
  match ops with
  | [] => Some h
  | op :: rest =>
      match step h op with
      | Some (h', _) => exec h' rest
      | None => None
      end
  end.

(** Every stored [InjectedDescriptor] has exactly one slot populated. *)
Definition store_ok (h : heap) : Prop :=
  forall l d, h !! l = Some (ObjInjectedDescriptor d) ->
              InjectedDescriptor.exactly_one d.

(** The context has nothing registered for [cls]. *)
Definition unbound {C} `{Context C} (ctx : C) (cls : pytype) : Prop :=
  get_type_dependency ctx cls = UNDEFINED.

#[global] Instance unbound_dec {C} `{Context C} (ctx : C) (cls : pytype)
  : Decision (unbound ctx cls).
Proof. unfold unbound. apply _. Defined.

(** ** A registry-backed context, for concrete runs *)

Record Registry : Type := {
  type_dependencies : gmap pytype pyobj;
  blocking : CallbackSig -> outcome pyobj;
  suspending : CallbackSig -> outcome Coroutine;
}.

#[global] Instance Registry_context : Context Registry := {|
  injection_client _ := {|
    execute_with_ctx ctx cb := blocking ctx cb;
    execute_with_ctx_async ctx cb := suspending ctx cb;
  |};
  get_type_dependency ctx cls := default UNDEFINED (type_dependencies ctx !! cls);
|}.

(** [str] of the objects used in concrete runs. *)
Definition show_type (t : pytype) : string :=
  match t with
  | Cls n => n
  | Union args => "typing.Union[" ++ String.concat ", " args ++ "]"
  end.

Definition show : PyFormat :=
  fun v =>
    match v with
    | UNDEFINED => "UNDEFINED"
    | PyNone => "None"
    | PyStr s => s
    | PyType t => show_type t
    | PyInt _ | PyInstance _ _ => "<object>"
    end.

(** ** Concrete inputs *)

Module Examples.

Definition A : pytype := Cls "A".
Definition B : pytype := Cls "B".
Definition AorB : pytype := Union ["A"; "B"].

Definition value_a : pyobj := PyInstance "A" 1.
Definition value_b : pyobj := PyInstance "B" 2.
Definition value_u : pyobj := PyInstance "A" 3.

Definition sync_cb : CallbackSig := Callable "make_session".
Definition async_cb : CallbackSig := Callable "open_connection".

(** A client in which [async_cb] needs the suspending path. *)
Definition registry (bindings : list (pytype * pyobj)) : Registry := {|
  type_dependencies := list_to_map bindings;
  blocking cb :=
    if decide (cb = async_cb) then Raise AsyncOnlyError
    else Return (PyStr "session");
  suspending cb := Return (Coro (Return (PyStr "session")));
|}.

Definition only_B : Registry := registry [(B, value_b)].

(** The bindings of [only_B] behind a client that runs nothing. *)
Definition only_B_idle : Registry := {|
  type_dependencies := type_dependencies only_B;
  blocking _ := Raise AsyncOnlyError;
  suspending _ := Raise (MissingDependencyError "no client" PyNone);
|}.
Definition both : Registry := registry [(A, value_a); (B, value_b)].
Definition nothing : Registry := registry [].
Definition literal_union : Registry :=
  registry [(AorB, value_u); (A, value_a)].

Definition wants_A_or_B (default : pyobj) : InjectedType.t := {|
  InjectedType.default := default;
  InjectedType.repr_type := PyType AorB;
  InjectedType.types := [A; B];
|}.

(** A descriptor is declared and a type descriptor is built ... *)
Definition declared : InjectedDescriptor.t := {|
  InjectedDescriptor.callback := Some sync_cb;
  InjectedDescriptor.type := None;
|}.

Definition history : list (operation Registry) :=
  [NewInjectedDescriptor (Some sync_cb) None;
   NewInjectedType (PyType AorB) [A; B] UNDEFINED].

(** ... and then every kind of operation is run, on every stored object. *)
Definition later : list (operation Registry) :=
  [Resolve 2%positive only_B;
   Resolve 1%positive only_B;
   ResolveAsync 1%positive only_B;
   NewInjectedDescriptor None None;
   NewInjectedDescriptor None (Some A);
   NewInjectedCallback async_cb;
   Resolve 4%positive nothing;
   ResolveAsync 4%positive nothing;
   ResolveAsync 2%positive nothing;
   Resolve 2%positive nothing].

End Examples.

(** * Properties *)

(** ** The candidate loop *)

Lemma is_UNDEFINED_true (v : pyobj) : is_UNDEFINED v = true <-> v = UNDEFINED.
Proof. destruct v; simpl; split; congruence. Qed.

Lemma is_UNDEFINED_false (v : pyobj) : is_UNDEFINED v = false <-> v <> UNDEFINED.
Proof. destruct v; simpl; split; congruence. Qed.

Section CandidateLoop.
Context {C : Type} `{Context C} (ctx : C).

Lemma for_cls_exhausted (types : list pytype) (w : world InjectedType.t) :
  Forall (unbound ctx) types ->
  InjectedType.for_cls ctx types w
  = (World (self w) (calls w ++ (GetTypeDependency <$> types)), Return None).
Proof.
  intros Hall. revert w.
  induction Hall as [|cls rest Hcls _ IH]; intros w.
  - simpl. unfold ret. rewrite app_nil_r. by destruct w.
  - simpl. unfold bind, call. rewrite Hcls. simpl.
    rewrite IH. simpl. by rewrite <- app_assoc.
Qed.

Lemma for_cls_found (pre post : list pytype) (cls : pytype)
    (w : world InjectedType.t) :
  Forall (unbound ctx) pre ->
  ~ unbound ctx cls ->
  InjectedType.for_cls ctx (pre ++ cls :: post)%list w
  = (World (self w) (calls w ++ (GetTypeDependency <$> pre ++ [cls])%list),
     Return (Some (get_type_dependency ctx cls))).
Proof.
  intros Hpre Hcls. revert w.
  induction Hpre as [|c rest Hc _ IH]; intros w.
  - simpl. unfold bind, call.
    apply is_UNDEFINED_false in Hcls. by rewrite Hcls.
  - simpl. unfold bind, call. rewrite Hc. simpl.
    rewrite IH. simpl. by rewrite <- app_assoc.
Qed.

(** Either every candidate is unbound, or there is a first bound one. *)
Lemma first_bound (types : list pytype) :
  Forall (unbound ctx) types
  \/ exists pre cls post,
       types = (pre ++ cls :: post)%list
       /\ Forall (unbound ctx) pre /\ ~ unbound ctx cls.
Proof.
  induction types as [|c rest IH].
  - left. constructor.
  - destruct (decide (unbound ctx c)) as [Hc|Hc].
    + destruct IH as [Hall|(pre & cls & post & -> & Hpre & Hcls)].
      * left. by constructor.
      * right. exists (c :: pre), cls, post. repeat split; [by constructor|done].
    + right. exists [], c, rest. repeat split; [constructor|done].
Qed.

Context `{PyFormat}.

Lemma resolve_exhausted (s : InjectedType.t) :
  Forall (unbound ctx) (InjectedType.types s) ->
  run (InjectedType.resolve ctx) s
  = (World s (GetTypeDependency <$> InjectedType.types s),
     if is_UNDEFINED (InjectedType.default s)
     then Raise (MissingDependencyError
                   (InjectedType.missing_message (InjectedType.repr_type s))
                   (InjectedType.repr_type s))
     else Return (InjectedType.default s)).
Proof.
  intros Hall. unfold run, InjectedType.resolve, bind, getattr. simpl.
  rewrite (for_cls_exhausted _ _ Hall). simpl.
  by destruct (is_UNDEFINED (InjectedType.default s)).
Qed.

Lemma resolve_found (s : InjectedType.t) (pre post : list pytype) (cls : pytype) :
  InjectedType.types s = (pre ++ cls :: post)%list ->
  Forall (unbound ctx) pre ->
  ~ unbound ctx cls ->
  run (InjectedType.resolve ctx) s
  = (World s (GetTypeDependency <$> pre ++ [cls])%list,
     Return (get_type_dependency ctx cls)).
Proof.
  intros Htypes Hpre Hcls. unfold run, InjectedType.resolve, bind, getattr.
  simpl. rewrite Htypes. by rewrite (for_cls_found _ _ _ _ Hpre Hcls).
Qed.

End CandidateLoop.

(** ** [InjectedType.resolve] *)

(** C1: the candidates are looked up in declaration order, one call each,
    up to and including the first one the context has a value for, and that
    value is returned; the descriptor is left as it was. *)
Theorem resolve_first_bound {C : Type} `{Context C} `{PyFormat}
    (ctx : C) (s : InjectedType.t) (pre post : list pytype) (cls : pytype) :
  InjectedType.types s = (pre ++ cls :: post)%list ->
  Forall (fun c => get_type_dependency ctx c = UNDEFINED) pre ->
  get_type_dependency ctx cls <> UNDEFINED ->
  run (InjectedType.resolve ctx) s
  = (World s (GetTypeDependency <$> pre ++ [cls])%list,
     Return (get_type_dependency ctx cls)).
Proof. intros Htypes Hpre Hcls. by eapply resolve_found. Qed.

(** With candidates [A; B]: when only [B] is registered, [A] is looked up,
    skipped, and the value of [B] is returned; when both are registered the
    value of [A] is returned and [B] is never looked up. *)
Lemma resolve_first_bound_witness :
  run (InjectedType.resolve (H0 := show) Examples.only_B)
      (Examples.wants_A_or_B UNDEFINED)
  = (World (Examples.wants_A_or_B UNDEFINED)
           [GetTypeDependency Examples.A; GetTypeDependency Examples.B],
     Return Examples.value_b)
  /\ run (InjectedType.resolve (H0 := show) Examples.both)
         (Examples.wants_A_or_B UNDEFINED)
     = (World (Examples.wants_A_or_B UNDEFINED) [GetTypeDependency Examples.A],
        Return Examples.value_a).
Proof.
  split.
  - etrans.
    + apply (resolve_first_bound (H0 := show) Examples.only_B
               (Examples.wants_A_or_B UNDEFINED) [Examples.A] [] Examples.B).
      * reflexivity.
      * repeat constructor.
      * vm_compute. discriminate.
    + vm_compute. reflexivity.
  - etrans.
    + apply (resolve_first_bound (H0 := show) Examples.both
               (Examples.wants_A_or_B UNDEFINED) [] [Examples.B] Examples.A).
      * reflexivity.
      * constructor.
      * vm_compute. discriminate.
    + vm_compute. reflexivity.
Defined.

(** C2: without a default and with every candidate unregistered, [resolve]
    raises [MissingDependencyError] carrying [repr_type] (and a message
    built from it); and whenever [resolve] raises, that is the situation and
    that is the exception. *)
Theorem resolve_raises_iff {C : Type} `{Context C} `{PyFormat}
    (ctx : C) (s : InjectedType.t) :
  let missing :=
    MissingDependencyError
      (InjectedType.missing_message (InjectedType.repr_type s))
      (InjectedType.repr_type s) in
  (InjectedType.default s = UNDEFINED ->
   Forall (fun c => get_type_dependency ctx c = UNDEFINED) (InjectedType.types s) ->
   (run (InjectedType.resolve ctx) s).2 = Raise missing)
  /\ (forall e, (run (InjectedType.resolve ctx) s).2 = Raise e ->
      InjectedType.default s = UNDEFINED
      /\ Forall (fun c => get_type_dependency ctx c = UNDEFINED)
                (InjectedType.types s)
      /\ e = missing).
Proof.
  intros missing. split.
  - intros Hdef Hall. rewrite (resolve_exhausted ctx s Hall). simpl.
    by rewrite Hdef.
  - intros e Hraise.
    destruct (first_bound ctx (InjectedType.types s))
      as [Hall|(pre & cls & post & Htypes & Hpre & Hcls)].
    + rewrite (resolve_exhausted ctx s Hall) in Hraise. simpl in Hraise.
      destruct (is_UNDEFINED (InjectedType.default s)) eqn:Hdef; [|done].
      apply is_UNDEFINED_true in Hdef. injection Hraise as <-. done.
    + by rewrite (resolve_found ctx s pre post cls Htypes Hpre Hcls) in Hraise.
Qed.

(** A descriptor for [A | B] without a default, resolved where nothing is
    registered: the error names the requested union. *)
Lemma resolve_raises_iff_witness :
  (run (InjectedType.resolve (H0 := show) Examples.nothing)
       (Examples.wants_A_or_B UNDEFINED)).2
  = Raise (MissingDependencyError
             "Couldn't resolve injected type(s) typing.Union[A, B] to actual value"
             (PyType Examples.AorB)).
Proof.
  etrans.
  - apply (proj1 (resolve_raises_iff (H0 := show) Examples.nothing
                    (Examples.wants_A_or_B UNDEFINED))).
    + reflexivity.
    + repeat constructor.
  - vm_compute. reflexivity.
Defined.

(** C3: with a default other than [UNDEFINED] ([None] included) and every
    candidate unregistered, [resolve] returns the default. *)
Theorem resolve_default {C : Type} `{Context C} `{PyFormat}
    (ctx : C) (s : InjectedType.t) :
  InjectedType.default s <> UNDEFINED ->
  Forall (fun c => get_type_dependency ctx c = UNDEFINED) (InjectedType.types s) ->
  run (InjectedType.resolve ctx) s
  = (World s (GetTypeDependency <$> InjectedType.types s),
     Return (InjectedType.default s)).
Proof.
  intros Hdef Hall. rewrite (resolve_exhausted ctx s Hall).
  apply is_UNDEFINED_false in Hdef. by rewrite Hdef.
Qed.

Lemma resolve_default_witness :
  run (InjectedType.resolve (H0 := show) Examples.nothing)
      (Examples.wants_A_or_B PyNone)
  = (World (Examples.wants_A_or_B PyNone)
           [GetTypeDependency Examples.A; GetTypeDependency Examples.B],
     Return PyNone).
Proof.
  etrans.
  - apply (resolve_default (H0 := show) Examples.nothing
             (Examples.wants_A_or_B PyNone)).
    + discriminate.
    + repeat constructor.
  - vm_compute. reflexivity.
Defined.

(** C7: [resolve] never hands [UNDEFINED] back: a returned value is the
    registered value of a candidate, or the default after every candidate
    was found unregistered, and in both cases differs from [UNDEFINED];
    the only other outcome is the missing-dependency error. *)
Theorem resolve_never_UNDEFINED {C : Type} `{Context C} `{PyFormat}
    (ctx : C) (s : InjectedType.t) :
  match (run (InjectedType.resolve ctx) s).2 with
  | Return v =>
      v <> UNDEFINED
      /\ ((exists cls, cls ∈ InjectedType.types s
                       /\ v = get_type_dependency ctx cls)
          \/ (v = InjectedType.default s
              /\ Forall (fun c => get_type_dependency ctx c = UNDEFINED)
                        (InjectedType.types s)))
  | Raise e =>
      e = MissingDependencyError
            (InjectedType.missing_message (InjectedType.repr_type s))
            (InjectedType.repr_type s)
  end.
Proof.
  destruct (first_bound ctx (InjectedType.types s))
    as [Hall|(pre & cls & post & Htypes & Hpre & Hcls)].
  - rewrite (resolve_exhausted ctx s Hall). simpl.
    destruct (is_UNDEFINED (InjectedType.default s)) eqn:Hdef; [done|].
    apply is_UNDEFINED_false in Hdef. split; [done|]. by right.
  - rewrite (resolve_found ctx s pre post cls Htypes Hpre Hcls). simpl.
    split; [done|]. left. exists cls. split; [|done].
    rewrite Htypes. apply elem_of_app. right. by left.
Qed.

Section ResolveFrame.
Context {C : Type} `{Context C} `{PyFormat} (ctx : C).

(** The calls of a resolution are lookups of a prefix of the candidates. *)
Lemma resolve_calls_prefix (s : InjectedType.t) :
  exists n,
    calls (run (InjectedType.resolve ctx) s).1
    = GetTypeDependency <$> take n (InjectedType.types s).
Proof.
  destruct (first_bound ctx (InjectedType.types s))
    as [Hall|(pre & cls & post & Htypes & Hpre & Hcls)].
  - exists (length (InjectedType.types s)).
    rewrite (resolve_exhausted ctx s Hall). simpl. by rewrite firstn_all.
  - exists (S (length pre)).
    rewrite (resolve_found ctx s pre post cls Htypes Hpre Hcls). simpl.
    rewrite Htypes. f_equal.
    rewrite (take_app_ge pre) by lia.
    replace (S (length pre) - length pre) with 1 by lia. done.
Qed.

Lemma resolve_self (s : InjectedType.t) :
  self (run (InjectedType.resolve ctx) s).1 = s.
Proof.
  destruct (first_bound ctx (InjectedType.types s))
    as [Hall|(pre & cls & post & Htypes & Hpre & Hcls)].
  - by rewrite (resolve_exhausted ctx s Hall).
  - by rewrite (resolve_found ctx s pre post cls Htypes Hpre Hcls).
Qed.

End ResolveFrame.

(** Two contexts that agree on the candidates give the same run. *)
Lemma resolve_agree {C1 C2 : Type} `{Context C1} `{Context C2} `{PyFormat}
    (ctx1 : C1) (ctx2 : C2) (s : InjectedType.t) :
  (forall cls, cls ∈ InjectedType.types s ->
               get_type_dependency ctx1 cls = get_type_dependency ctx2 cls) ->
  run (InjectedType.resolve ctx1) s = run (InjectedType.resolve ctx2) s.
Proof.
  intros Hagree.
  destruct (first_bound ctx1 (InjectedType.types s))
    as [Hall|(pre & cls & post & Htypes & Hpre & Hcls)].
  - rewrite (resolve_exhausted ctx1 s Hall).
    rewrite (resolve_exhausted ctx2 s); [done|].
    apply Forall_forall. intros c Hc. unfold unbound.
    rewrite <- (Hagree c Hc). by apply (proj1 (Forall_forall _ _) Hall).
  - rewrite (resolve_found ctx1 s pre post cls Htypes Hpre Hcls).
    assert (Hin : forall c, c ∈ (pre ++ [cls])%list -> c ∈ InjectedType.types s).
    { intros c Hc. rewrite Htypes. rewrite elem_of_app, elem_of_cons.
      apply elem_of_app in Hc as [Hc|Hc]; [by left|].
      apply list_elem_of_singleton in Hc. right. by left. }
    assert (Hlast : cls ∈ (pre ++ [cls])%list).
    { apply elem_of_app. right. by apply list_elem_of_singleton. }
    rewrite (resolve_found ctx2 s pre post cls Htypes).
    + by rewrite (Hagree cls (Hin cls Hlast)).
    + apply Forall_forall. intros c Hc. unfold unbound.
      rewrite <- (Hagree c) by (apply Hin, elem_of_app; by left).
      by apply (proj1 (Forall_forall _ _) Hpre).
    + unfold unbound. by rewrite <- (Hagree cls (Hin cls Hlast)).
Qed.

(** C8: resolving a descriptor against one context and then against another
    with the same type bindings gives the same outcome (value or error) after
    the same lookups, and the descriptor's [default], [repr_type] and
    [types] are what they were before, after each of the two calls. *)
Theorem resolve_twice {C1 C2 : Type} `{Context C1} `{Context C2} `{PyFormat}
    (ctx1 : C1) (ctx2 : C2) (s : InjectedType.t) :
  (forall cls, get_type_dependency ctx1 cls = get_type_dependency ctx2 cls) ->
  let first := run (InjectedType.resolve ctx1) s in
  let second := run (InjectedType.resolve ctx2) (self first.1) in
  first.2 = second.2
  /\ calls first.1 = calls second.1
  /\ self first.1 = s
  /\ self second.1 = s.
Proof.
  intros Hsame first second. subst first second.
  rewrite (resolve_self ctx1 s).
  rewrite (resolve_agree ctx1 ctx2 s) by (intros cls _; apply Hsame).
  by rewrite (resolve_self ctx2 s).
Qed.

Lemma resolve_twice_witness :
  let first := run (InjectedType.resolve (H0 := show) Examples.only_B)
                   (Examples.wants_A_or_B UNDEFINED) in
  let second := run (InjectedType.resolve (H0 := show) Examples.only_B_idle)
                    (self first.1) in
  first.2 = second.2
  /\ calls first.1 = calls second.1
  /\ self first.1 = Examples.wants_A_or_B UNDEFINED
  /\ self second.1 = Examples.wants_A_or_B UNDEFINED.
Proof.
  apply (resolve_twice (H1 := show) Examples.only_B Examples.only_B_idle
           (Examples.wants_A_or_B UNDEFINED)).
  intros cls. reflexivity.
Defined.

(** C10: the constructor takes an empty candidate sequence without raising,
    and resolving such a descriptor makes no call on the context: it returns
    the default unless that is [UNDEFINED], in which case it raises the
    missing-dependency error. *)
Theorem resolve_no_candidates {C : Type} `{Context C} `{PyFormat}
    (ctx : C) (repr_type default : pyobj) :
  exists s,
    InjectedType.__init__ repr_type [] default = Return s
    /\ InjectedType.types s = []
    /\ run (InjectedType.resolve ctx) s
       = (World s [],
          if is_UNDEFINED default
          then Raise (MissingDependencyError
                        (InjectedType.missing_message repr_type) repr_type)
          else Return default).
Proof.
  eexists. split; [reflexivity|]. split; [reflexivity|].
  rewrite resolve_exhausted by constructor. reflexivity.
Qed.

(** ** [InjectedCallback] *)

(** C6: [resolve] makes one call, [execute_with_ctx(ctx, self.callback)] on
    the context's client, and its outcome is that call's outcome;
    [resolve_async] does the same with [execute_with_ctx_async].  An
    exception of the delegate, raised by the call or on awaiting the
    coroutine it returned, reaches the caller as it is. *)
Theorem callback_resolve_delegates {C : Type} `{Context C}
    (ctx : C) (s : InjectedCallback.t) :
  let cb := InjectedCallback.callback s in
  let client := injection_client ctx in
  run (InjectedCallback.resolve ctx) s
  = (World s [ExecuteWithCtx cb], execute_with_ctx client ctx cb)
  /\ run (InjectedCallback.resolve_async ctx) s
     = (World s [ExecuteWithCtxAsync cb], execute_with_ctx_async client ctx cb)
  /\ (forall e, execute_with_ctx client ctx cb = Raise e ->
                (run (InjectedCallback.resolve ctx) s).2 = Raise e)
  /\ (forall e, execute_with_ctx_async client ctx cb = Raise e ->
                (run (InjectedCallback.resolve_async ctx) s).2 = Raise e)
  /\ (forall e, awaited (execute_with_ctx_async client ctx cb) = Raise e ->
                awaited (run (InjectedCallback.resolve_async ctx) s).2 = Raise e).
Proof.
  intros cb client.
  assert (Hsync : run (InjectedCallback.resolve ctx) s
                  = (World s [ExecuteWithCtx cb], execute_with_ctx client ctx cb)).
  { unfold run, InjectedCallback.resolve, bind, getattr, call. reflexivity. }
  assert (Hasync : run (InjectedCallback.resolve_async ctx) s
                   = (World s [ExecuteWithCtxAsync cb],
                      execute_with_ctx_async client ctx cb)).
  { unfold run, InjectedCallback.resolve_async, bind, getattr, call.
    reflexivity. }
  split; [exact Hsync|]. split; [exact Hasync|].
  rewrite Hsync, Hasync. simpl. auto.
Qed.

(** A callback that needs the suspending path: the blocking resolution
    fails with the client's [AsyncOnlyError]. *)
Lemma callback_resolve_delegates_witness :
  (run (InjectedCallback.resolve Examples.nothing)
       {| InjectedCallback.callback := Examples.async_cb |}).2
  = Raise AsyncOnlyError.
Proof.
  apply (proj1 (proj2 (proj2
           (callback_resolve_delegates Examples.nothing
              {| InjectedCallback.callback := Examples.async_cb |})))).
  reflexivity.
Defined.

(** ** [InjectedDescriptor] *)

(** C4: the constructor raises exactly when none or both of [callback] and
    [type] are given, with a [ValueError] whose message reads, in lower case
    and without the backquotes, "must specify one of callback or type" in
    the first case and "only one of callback or type can be specified" in
    the second; given exactly one, it returns the descriptor holding it. *)
Theorem descriptor_init_cases
    (callback : option CallbackSig) (type : option pytype) :
  (raises (InjectedDescriptor.__init__ callback type)
   <-> (callback = None /\ type = None) \/ (callback <> None /\ type <> None))
  /\ (exists msg,
        InjectedDescriptor.__init__ None None = Raise (ValueError msg)
        /\ plain_text msg = "must specify one of callback or type")
  /\ (exists msg,
        (forall cb ty,
           InjectedDescriptor.__init__ (Some cb) (Some ty) = Raise (ValueError msg))
        /\ plain_text msg = "only one of callback or type can be specified")
  /\ (forall cb,
        InjectedDescriptor.__init__ (Some cb) None
        = Return {| InjectedDescriptor.callback := Some cb;
                    InjectedDescriptor.type := None |})
  /\ (forall ty,
        InjectedDescriptor.__init__ None (Some ty)
        = Return {| InjectedDescriptor.callback := None;
                    InjectedDescriptor.type := Some ty |}).
Proof.
  split; [|split; [|split; [|split]]].
  - unfold raises. destruct callback as [cb|], type as [ty|]; simpl.
    + split; [intros _; by right|]. intros _. by eexists.
    + split; [by intros [e He]|]. intros [[? _]|[_ ?]]; done.
    + split; [by intros [e He]|]. intros [[_ ?]|[? _]]; done.
    + split; [intros _; by left|]. intros _. by eexists.
  - eexists. split; reflexivity.
  - eexists. split; [intros cb ty|]; reflexivity.
  - reflexivity.
  - reflexivity.
Qed.

Lemma descriptor_init_cases_witness :
  raises (InjectedDescriptor.__init__ (Some Examples.sync_cb) (Some Examples.A)).
Proof.
  apply (proj2 (proj1 (descriptor_init_cases
                         (Some Examples.sync_cb) (Some Examples.A)))).
  right. split; discriminate.
Defined.

(** ** Declared unions *)

(** C5, as the code has it: neither constructor expands a union.
    [InjectedType] keeps the candidate sequence it is handed, and a
    resolution looks up an initial run of exactly that sequence, so a type
    form is tried only if it is in the sequence as given; [InjectedDescriptor]
    keeps the declared type as it is. *)
Theorem candidates_tried_as_given {C : Type} `{Context C} `{PyFormat}
    (ctx : C) (repr_type : pyobj) (types : list pytype) (default : pyobj) :
  exists s,
    InjectedType.__init__ repr_type types default = Return s
    /\ InjectedType.types s = types
    /\ (exists n, calls (run (InjectedType.resolve ctx) s).1
                  = GetTypeDependency <$> take n types)
    /\ (forall t, GetTypeDependency t ∈ calls (run (InjectedType.resolve ctx) s).1 ->
                  t ∈ types)
    /\ (forall declared,
          InjectedDescriptor.__init__ None (Some declared)
          = Return {| InjectedDescriptor.callback := None;
                      InjectedDescriptor.type := Some declared |}).
Proof.
  eexists. split; [reflexivity|]. simpl. split; [reflexivity|].
  pose proof (resolve_calls_prefix ctx
                {| InjectedType.default := default;
                   InjectedType.repr_type := repr_type;
                   InjectedType.types := types |}) as [n Hn].
  simpl in Hn. split; [by exists n|]. split; [|reflexivity].
  intros t Ht. rewrite Hn in Ht.
  apply list_elem_of_fmap in Ht as (c & Hc & Hin).
  injection Hc as ->. by apply (subseteq_take n).
Qed.

(** With candidates [A; B], the union [A | B] is not looked up, whatever is
    registered for it. *)
Lemma candidates_tried_as_given_witness :
  GetTypeDependency Examples.AorB
  ∉ calls (run (InjectedType.resolve (H0 := show) Examples.literal_union)
               (Examples.wants_A_or_B UNDEFINED)).1.
Proof.
  destruct (candidates_tried_as_given (H0 := show) Examples.literal_union
              (PyType Examples.AorB) [Examples.A; Examples.B] UNDEFINED)
    as (s & Hs & _ & _ & Honly & _).
  injection Hs as <-. intros Hin. apply Honly in Hin.
  apply elem_of_cons in Hin as [Hin|Hin]; [discriminate|].
  apply list_elem_of_singleton in Hin. discriminate.
Defined.

(** A descriptor handed the literal union ahead of its members: the union
    form is a candidate, it is the first lookup, and the value registered
    for it is what [resolve] returns.  The declaration marker built from the
    same union holds the union, not its members. *)
Lemma literal_union_is_candidate :
  exists s,
    InjectedType.__init__ (PyType Examples.AorB)
      [Examples.AorB; Examples.A; Examples.B] UNDEFINED = Return s
    /\ Examples.AorB ∈ InjectedType.types s
    /\ run (InjectedType.resolve (H0 := show) Examples.literal_union) s
       = (World s [GetTypeDependency Examples.AorB], Return Examples.value_u)
    /\ InjectedDescriptor.__init__ None (Some Examples.AorB)
       = Return {| InjectedDescriptor.callback := None;
                   InjectedDescriptor.type := Some Examples.AorB |}.
Proof.
  eexists. split; [reflexivity|]. split; [by left|].
  split; [vm_compute|]; reflexivity.
Qed.

(** ** The store: descriptors are never rewritten *)

Lemma descriptor_init_returns (callback : option CallbackSig)
    (type : option pytype) (d : InjectedDescriptor.t) :
  InjectedDescriptor.__init__ callback type = Return d ->
  InjectedDescriptor.callback d = callback
  /\ InjectedDescriptor.type d = type
  /\ InjectedDescriptor.exactly_one d.
Proof.
  unfold InjectedDescriptor.exactly_one.
  destruct callback as [cb|], type as [ty|]; simpl; intros Hd;
    try discriminate; injection Hd as <-; simpl.
  - split; [done|]. split; [done|]. by left.
  - split; [done|]. split; [done|]. by right.
Qed.

Lemma construct_keeps {A} (wrap : A -> object) (made : outcome A)
    (h h' : heap) (r : outcome retval) (l : loc) (obj : object) :
  construct wrap made h = (h', r) ->
  h !! l = Some obj ->
  h' !! l = Some obj.
Proof.
  unfold construct. destruct made as [o|e]; intros Hc Hl.
  - injection Hc as <- _. rewrite lookup_insert_ne; [done|].
    intros <-. apply (is_fresh (dom h)). apply elem_of_dom. by eexists.
  - by injection Hc as <- _.
Qed.

Lemma construct_adds {A} (wrap : A -> object) (made : outcome A)
    (h h' : heap) (r : outcome retval) (l : loc) (obj : object) :
  construct wrap made h = (h', r) ->
  h' !! l = Some obj ->
  h !! l = Some obj \/ exists o, made = Return o /\ obj = wrap o.
Proof.
  unfold construct. destruct made as [o|e]; intros Hc Hl.
  - injection Hc as <- _.
    destruct (decide (fresh (dom h) = l)) as [<-|Hne].
    + rewrite lookup_insert_eq in Hl. injection Hl as <-. right. by eexists.
    + rewrite lookup_insert_ne in Hl by done. by left.
  - injection Hc as <- _. by left.
Qed.

Lemma invoke_lookup {S A} (wrap : S -> object) (tag : A -> retval)
    (method : M S A) (target : loc) (o : S) (h h' : heap)
    (r : outcome retval) (l : loc) :
  invoke wrap tag method target o h = (h', r) ->
  h' !! l = if decide (target = l) then Some (wrap (self (run method o).1))
            else h !! l.
Proof.
  unfold invoke. destruct (run method o) as [w r']. intros Hi.
  injection Hi as <- _. simpl. apply lookup_insert.
Qed.

Section Store.
Context {C : Type} `{Context C} `{PyFormat}.

(** An operation leaves every stored [InjectedDescriptor] as it is. *)
Lemma step_keeps_descriptor (h h' : heap) (op : operation C)
    (r : outcome retval) (l : loc) (d : InjectedDescriptor.t) :
  step h op = Some (h', r) ->
  h !! l = Some (ObjInjectedDescriptor d) ->
  h' !! l = Some (ObjInjectedDescriptor d).
Proof.
  intros Hstep Hl. destruct op as [cb|rt ts df|cb ty|target ctx|target ctx];
    cbn [step] in Hstep.
  - apply (inj Some) in Hstep as Hc. by eapply construct_keeps.
  - apply (inj Some) in Hstep as Hc. by eapply construct_keeps.
  - apply (inj Some) in Hstep as Hc. by eapply construct_keeps.
  - destruct (h !! target) as [obj|] eqn:Ht; [|done]. simpl in Hstep.
    apply (inj Some) in Hstep as Hobj.
    destruct obj as [o|o|o].
    + rewrite (invoke_lookup _ _ _ _ _ _ _ _ l Hobj).
      case_decide; [congruence|done].
    + rewrite (invoke_lookup _ _ _ _ _ _ _ _ l Hobj).
      case_decide; [congruence|done].
    + by injection Hobj as <- _.
  - destruct (h !! target) as [obj|] eqn:Ht; [|done]. simpl in Hstep.
    apply (inj Some) in Hstep as Hobj.
    destruct obj as [o|o|o].
    + rewrite (invoke_lookup _ _ _ _ _ _ _ _ l Hobj).
      case_decide; [congruence|done].
    + by injection Hobj as <- _.
    + by injection Hobj as <- _.
Qed.

Lemma step_store_ok (h h' : heap) (op : operation C) (r : outcome retval) :
  step h op = Some (h', r) -> store_ok h -> store_ok h'.
Proof.
  intros Hstep Hok l d Hl.
  destruct op as [cb|rt ts df|cb ty|target ctx|target ctx];
    cbn [step] in Hstep.
  - apply (inj Some) in Hstep as Hc.
    destruct (construct_adds _ _ _ _ _ _ _ Hc Hl) as [Hold|(o & _ & Ho)];
      [by eapply Hok|done].
  - apply (inj Some) in Hstep as Hc.
    destruct (construct_adds _ _ _ _ _ _ _ Hc Hl) as [Hold|(o & _ & Ho)];
      [by eapply Hok|done].
  - apply (inj Some) in Hstep as Hc.
    destruct (construct_adds _ _ _ _ _ _ _ Hc Hl) as [Hold|(o & Hinit & Ho)];
      [by eapply Hok|].
    injection Ho as ->. by apply (descriptor_init_returns cb ty).
  - destruct (h !! target) as [obj|] eqn:Ht; [|done]. simpl in Hstep.
    apply (inj Some) in Hstep as Hobj.
    destruct obj as [o|o|o].
    + rewrite (invoke_lookup _ _ _ _ _ _ _ _ l Hobj) in Hl.
      case_decide; [done|by eapply Hok].
    + rewrite (invoke_lookup _ _ _ _ _ _ _ _ l Hobj) in Hl.
      case_decide; [done|by eapply Hok].
    + injection Hobj as <- _. by eapply Hok.
  - destruct (h !! target) as [obj|] eqn:Ht; [|done]. simpl in Hstep.
    apply (inj Some) in Hstep as Hobj.
    destruct obj as [o|o|o].
    + rewrite (invoke_lookup _ _ _ _ _ _ _ _ l Hobj) in Hl.
      case_decide; [done|by eapply Hok].
    + injection Hobj as <- _. by eapply Hok.
    + injection Hobj as <- _. by eapply Hok.
Qed.

Lemma exec_keeps_descriptor (ops : list (operation C)) (h h' : heap)
    (l : loc) (d : InjectedDescriptor.t) :
  exec h ops = Some h' ->
  h !! l = Some (ObjInjectedDescriptor d) ->
  h' !! l = Some (ObjInjectedDescriptor d).
Proof.
  revert h. induction ops as [|op rest IH]; intros h Hexec Hl; simpl in Hexec.
  - by injection Hexec as <-.
  - destruct (step h op) as [[h1 r]|] eqn:Hstep; [|done].
    apply (IH h1 Hexec). by eapply step_keeps_descriptor.
Qed.

Lemma exec_store_ok (ops : list (operation C)) (h h' : heap) :
  exec h ops = Some h' -> store_ok h -> store_ok h'.
Proof.
  revert h. induction ops as [|op rest IH]; intros h Hexec Hok; simpl in Hexec.
  - by injection Hexec as <-.
  - destruct (step h op) as [[h1 r]|] eqn:Hstep; [|done].
    apply (IH h1 Hexec). by eapply step_store_ok.
Qed.

End Store.

(** C9: a constructor call that returns gives a descriptor holding the two
    arguments, exactly one of which is not [None]; and in any store built by
    the operations of this module, every [InjectedDescriptor] has exactly one
    slot populated and is the same object, slot for slot, after any further
    operations. *)
Theorem descriptor_one_slot_frozen {C : Type} `{Context C} `{PyFormat} :
  (forall callback type d,
     InjectedDescriptor.__init__ callback type = Return d ->
     InjectedDescriptor.callback d = callback
     /\ InjectedDescriptor.type d = type
     /\ InjectedDescriptor.exactly_one d)
  /\ (forall (ops : list (operation C)) (h : heap) (l : loc) d,
        exec ∅ ops = Some h ->
        h !! l = Some (ObjInjectedDescriptor d) ->
        InjectedDescriptor.exactly_one d
        /\ forall (ops' : list (operation C)) (h' : heap),
             exec h ops' = Some h' ->
             h' !! l = Some (ObjInjectedDescriptor d)).
Proof.
  split.
  - apply descriptor_init_returns.
  - intros ops h l d Hexec Hl. split.
    + apply (exec_store_ok ops ∅ h Hexec) with l; [|done].
      intros l0 d0 Hl0. by rewrite lookup_empty in Hl0.
    + intros ops' h' Hexec'. by apply (exec_keeps_descriptor ops' h).
Qed.

Lemma descriptor_one_slot_frozen_witness :
  exists h h' : heap,
    exec (H0 := show) ∅ Examples.history = Some h
    /\ exec (H0 := show) h Examples.later = Some h'
    /\ InjectedDescriptor.exactly_one Examples.declared
    /\ h' !! 1%positive = Some (ObjInjectedDescriptor Examples.declared).
Proof.
  eexists _, _.
  split; [vm_compute; reflexivity|]. split; [vm_compute; reflexivity|].
  pose proof (proj2 (descriptor_one_slot_frozen (C := Registry) (H0 := show))
                Examples.history) as Hstore.
  edestruct (fun h => Hstore h 1%positive Examples.declared)
    as [Hone Hfrozen].
  - vm_compute. reflexivity.
  - vm_compute. reflexivity.
  - split; [exact Hone|]. apply (Hfrozen Examples.later).
    vm_compute. reflexivity.
Defined.

(** * Further properties of the resolution algorithm *)

Section Outcomes.
Context {C : Type} `{Context C} `{PyFormat} (ctx : C).

(** A bound candidate exists exactly when the candidates split at a first
    bound one. *)
Lemma first_bound_of_exists (types : list pytype) :
  Exists (fun c => get_type_dependency ctx c <> UNDEFINED) types ->
  exists pre cls post,
    types = (pre ++ cls :: post)%list
    /\ Forall (unbound ctx) pre /\ ~ unbound ctx cls.
Proof.
  intros Hex. destruct (first_bound ctx types) as [Hall|Hsplit]; [|done].
  apply Exists_exists in Hex as (c & Hc & Hbound).
  by destruct (Hbound (proj1 (Forall_forall _ _) Hall c Hc)).
Qed.

Lemma resolve_raises_when (s : InjectedType.t) :
  raises (run (InjectedType.resolve ctx) s).2
  <-> InjectedType.default s = UNDEFINED
      /\ Forall (unbound ctx) (InjectedType.types s).
Proof.
  unfold raises.
  destruct (first_bound ctx (InjectedType.types s))
    as [Hall|(pre & cls & post & Htypes & Hpre & Hcls)].
  - rewrite (resolve_exhausted ctx s Hall). simpl.
    destruct (is_UNDEFINED (InjectedType.default s)) eqn:Hdef.
    + apply is_UNDEFINED_true in Hdef. split; [done|]. intros _. by eexists.
    + apply is_UNDEFINED_false in Hdef. split; [by intros [e He]|].
      by intros [Hd _].
  - rewrite (resolve_found ctx s pre post cls Htypes Hpre Hcls). simpl.
    split; [by intros [e He]|]. intros [_ Hall]. exfalso. apply Hcls.
    rewrite Htypes in Hall. apply Forall_app in Hall as [_ Hall].
    by apply Forall_cons in Hall as [Hc _].
Qed.

End Outcomes.

(** X1: candidates appended after a sequence that already holds a bound
    candidate are never reached: lookups and outcome are those of the front
    part alone.  After a front part with nothing bound, the run continues as
    the run over the back part: the front lookups, then the back part's
    lookups, and the back part's outcome. *)
Theorem resolve_candidates_app {C : Type} `{Context C} `{PyFormat}
    (ctx : C) (r d : pyobj) (front back : list pytype) :
  let desc ts := {| InjectedType.default := d; InjectedType.repr_type := r;
                    InjectedType.types := ts |} in
  (Exists (fun c => get_type_dependency ctx c <> UNDEFINED) front ->
   calls (run (InjectedType.resolve ctx) (desc (front ++ back)%list)).1
   = calls (run (InjectedType.resolve ctx) (desc front)).1
   /\ (run (InjectedType.resolve ctx) (desc (front ++ back)%list)).2
      = (run (InjectedType.resolve ctx) (desc front)).2)
  /\ (Forall (fun c => get_type_dependency ctx c = UNDEFINED) front ->
      calls (run (InjectedType.resolve ctx) (desc (front ++ back)%list)).1
      = ((GetTypeDependency <$> front)
           ++ calls (run (InjectedType.resolve ctx) (desc back)).1)%list
      /\ (run (InjectedType.resolve ctx) (desc (front ++ back)%list)).2
         = (run (InjectedType.resolve ctx) (desc back)).2).
Proof.
  intros desc. split.
  - intros Hex.
    destruct (first_bound_of_exists ctx front Hex)
      as (pre & cls & post & -> & Hpre & Hcls).
    rewrite (resolve_found ctx (desc ((pre ++ cls :: post) ++ back)%list)
               pre (post ++ back)%list cls); [|by rewrite <- app_assoc|done..].
    by rewrite (resolve_found ctx (desc (pre ++ cls :: post)%list)
                  pre post cls).
  - intros Hfront.
    destruct (first_bound ctx back)
      as [Hall|(pre & cls & post & -> & Hpre & Hcls)].
    + rewrite (resolve_exhausted ctx (desc (front ++ back)%list))
        by (by apply Forall_app).
      rewrite (resolve_exhausted ctx (desc back)) by done.
      simpl. by rewrite fmap_app.
    + rewrite (resolve_found ctx (desc (front ++ pre ++ cls :: post)%list)
                 (front ++ pre)%list post cls);
        [|by rewrite <- app_assoc|by apply Forall_app|done].
      rewrite (resolve_found ctx (desc (pre ++ cls :: post)%list)
                 pre post cls) by done.
      simpl. by rewrite <- fmap_app, app_assoc.
Qed.

(** [A | B] with [Cls "C"] appended, where only [B] is registered: the third
    candidate is not looked up. *)
Lemma resolve_candidates_app_witness :
  calls (run (InjectedType.resolve (H0 := show) Examples.only_B)
             {| InjectedType.default := UNDEFINED;
                InjectedType.repr_type := PyType Examples.AorB;
                InjectedType.types := [Examples.A; Examples.B] ++ [Cls "C"] |}).1
  = calls (run (InjectedType.resolve (H0 := show) Examples.only_B)
               (Examples.wants_A_or_B UNDEFINED)).1.
Proof.
  apply (proj1 (resolve_candidates_app (H0 := show) Examples.only_B
                  (PyType Examples.AorB) UNDEFINED
                  [Examples.A; Examples.B] [Cls "C"])).
  apply Exists_cons_tl, Exists_cons_hd. vm_compute. discriminate.
Defined.

(** X2: the order of the candidates decides which registered value wins and
    nothing else.  Reordering them never turns a success into a
    missing-dependency error or back, and when all registered candidates
    carry one and the same value the outcome is the same in any order. *)
Theorem resolve_reordered {C : Type} `{Context C} `{PyFormat}
    (ctx : C) (r d : pyobj) (types types' : list pytype) :
  let desc ts := {| InjectedType.default := d; InjectedType.repr_type := r;
                    InjectedType.types := ts |} in
  types ≡ₚ types' ->
  (raises (run (InjectedType.resolve ctx) (desc types)).2
   <-> raises (run (InjectedType.resolve ctx) (desc types')).2)
  /\ ((forall c1 c2, c1 ∈ types -> c2 ∈ types ->
         get_type_dependency ctx c1 <> UNDEFINED ->
         get_type_dependency ctx c2 <> UNDEFINED ->
         get_type_dependency ctx c1 = get_type_dependency ctx c2) ->
      (run (InjectedType.resolve ctx) (desc types)).2
      = (run (InjectedType.resolve ctx) (desc types')).2).
Proof.
  intros desc Hperm. split.
  - rewrite !resolve_raises_when. simpl. by rewrite Hperm.
  - intros Hsame.
    destruct (first_bound ctx types)
      as [Hall|(pre & cls & post & Htypes & Hpre & Hcls)].
    + rewrite (resolve_exhausted ctx (desc types)) by done.
      rewrite (resolve_exhausted ctx (desc types')); [done|].
      simpl. by rewrite <- Hperm.
    + rewrite (resolve_found ctx (desc types) pre post cls) by done.
      assert (Hin : cls ∈ types).
      { rewrite Htypes. apply elem_of_app. right. by left. }
      destruct (first_bound ctx types')
        as [Hall'|(pre' & cls' & post' & Htypes' & Hpre' & Hcls')].
      * exfalso. apply Hcls.
        apply (proj1 (Forall_forall _ _) Hall'). by rewrite <- Hperm.
      * rewrite (resolve_found ctx (desc types') pre' post' cls') by done.
        simpl. f_equal. apply Hsame; [done| |done..].
        rewrite Hperm, Htypes'. apply elem_of_app. right. by left.
Qed.

(** [B; A] against [A; B] where only [B] is registered. *)
Lemma resolve_reordered_witness :
  (run (InjectedType.resolve (H0 := show) Examples.only_B)
       (Examples.wants_A_or_B UNDEFINED)).2
  = (run (InjectedType.resolve (H0 := show) Examples.only_B)
         {| InjectedType.default := UNDEFINED;
            InjectedType.repr_type := PyType Examples.AorB;
            InjectedType.types := [Examples.B; Examples.A] |}).2.
Proof.
  apply (proj2 (resolve_reordered (H0 := show) Examples.only_B
                  (PyType Examples.AorB) UNDEFINED
                  [Examples.A; Examples.B] [Examples.B; Examples.A]
                  (Permutation_swap _ _ _))).
  intros c1 c2 H1 H2.
  apply elem_of_cons in H1 as [->|H1]; [intros Hb; by destruct Hb|].
  apply list_elem_of_singleton in H1 as ->.
  apply elem_of_cons in H2 as [->|H2]; [intros _ Hb; by destruct Hb|].
  apply list_elem_of_singleton in H2 as ->. reflexivity.
Defined.

(** X3: a resolution depends on the context only through the lookups it
    makes.  A second context, of any kind and with any client, that answers
    those lookups alike gives the same lookups, the same outcome and the same
    descriptor, whatever it has registered for other types, the later
    candidates included. *)
Theorem resolve_depends_on_lookups_made {C1 C2 : Type}
    `{Context C1} `{Context C2} `{PyFormat}
    (ctx1 : C1) (ctx2 : C2) (s : InjectedType.t) :
  (forall cls,
     GetTypeDependency cls ∈ calls (run (InjectedType.resolve ctx1) s).1 ->
     get_type_dependency ctx1 cls = get_type_dependency ctx2 cls) ->
  run (InjectedType.resolve ctx1) s = run (InjectedType.resolve ctx2) s.
Proof.
  intros Hagree.
  destruct (first_bound ctx1 (InjectedType.types s))
    as [Hall|(pre & cls & post & Htypes & Hpre & Hcls)].
  - rewrite (resolve_exhausted ctx1 s Hall) in Hagree |- *. simpl in Hagree.
    rewrite (resolve_exhausted ctx2 s); [done|].
    apply Forall_forall. intros c Hc. unfold unbound.
    rewrite <- (Hagree c) by (by apply list_elem_of_fmap_2).
    by apply (proj1 (Forall_forall _ _) Hall).
  - rewrite (resolve_found ctx1 s pre post cls Htypes Hpre Hcls) in Hagree |- *.
    simpl in Hagree.
    assert (Hlast : cls ∈ (pre ++ [cls])%list).
    { apply elem_of_app. right. by apply list_elem_of_singleton. }
    rewrite (resolve_found ctx2 s pre post cls Htypes).
    + by rewrite (Hagree cls (list_elem_of_fmap_2 _ _ _ Hlast)).
    + apply Forall_forall. intros c Hc. unfold unbound.
      rewrite <- (Hagree c)
        by (apply list_elem_of_fmap_2, elem_of_app; by left).
      by apply (proj1 (Forall_forall _ _) Hpre).
    + unfold unbound.
      by rewrite <- (Hagree cls (list_elem_of_fmap_2 _ _ _ Hlast)).
Qed.

(** With both [A] and [B] registered only [A] is looked up, so a context
    that registers [A] alike and the union besides gives the same run. *)
Lemma resolve_depends_on_lookups_made_witness :
  run (InjectedType.resolve (H0 := show) Examples.both)
      (Examples.wants_A_or_B UNDEFINED)
  = run (InjectedType.resolve (H0 := show) Examples.literal_union)
        (Examples.wants_A_or_B UNDEFINED).
Proof.
  apply (resolve_depends_on_lookups_made (H1 := show)
           Examples.both Examples.literal_union
           (Examples.wants_A_or_B UNDEFINED)).
  intros cls Hcls. vm_compute in Hcls.
  apply list_elem_of_singleton in Hcls. injection Hcls as ->.
  vm_compute. reflexivity.
Defined.

(** X4: [default] and [repr_type] play no part until every candidate has
    been found unregistered.  Two descriptors with the same candidates make
    the same lookups; they have the same outcome when some candidate is
    registered, and also when they share a default other than [UNDEFINED]
    ([repr_type] only ever shows in the error). *)
Theorem resolve_fallback_last {C : Type} `{Context C} `{PyFormat}
    (ctx : C) (s1 s2 : InjectedType.t) :
  InjectedType.types s1 = InjectedType.types s2 ->
  calls (run (InjectedType.resolve ctx) s1).1
  = calls (run (InjectedType.resolve ctx) s2).1
  /\ (Exists (fun c => get_type_dependency ctx c <> UNDEFINED)
             (InjectedType.types s1) ->
      (run (InjectedType.resolve ctx) s1).2
      = (run (InjectedType.resolve ctx) s2).2)
  /\ (InjectedType.default s1 = InjectedType.default s2 ->
      InjectedType.default s1 <> UNDEFINED ->
      (run (InjectedType.resolve ctx) s1).2
      = (run (InjectedType.resolve ctx) s2).2).
Proof.
  intros Htypes.
  destruct (first_bound ctx (InjectedType.types s1))
    as [Hall|(pre & cls & post & Hsplit & Hpre & Hcls)].
  - rewrite (resolve_exhausted ctx s1 Hall).
    rewrite (resolve_exhausted ctx s2) by (by rewrite <- Htypes).
    simpl. rewrite Htypes. split; [done|]. split.
    + intros Hex. apply Exists_exists in Hex as (c & Hc & Hbound).
      rewrite <- Htypes in Hc.
      by destruct (Hbound (proj1 (Forall_forall _ _) Hall c Hc)).
    + intros Hdef Hne. rewrite <- Hdef.
      apply is_UNDEFINED_false in Hne. by rewrite Hne.
  - rewrite (resolve_found ctx s1 pre post cls Hsplit Hpre Hcls).
    rewrite (resolve_found ctx s2 pre post cls);
      [done|by rewrite <- Htypes|done..].
Qed.

(** The same candidates with and without a default, where [B] is
    registered. *)
Lemma resolve_fallback_last_witness :
  (run (InjectedType.resolve (H0 := show) Examples.only_B)
       (Examples.wants_A_or_B PyNone)).2
  = (run (InjectedType.resolve (H0 := show) Examples.only_B)
         (Examples.wants_A_or_B UNDEFINED)).2.
Proof.
  apply (proj1 (proj2 (resolve_fallback_last (H0 := show) Examples.only_B
                         (Examples.wants_A_or_B PyNone)
                         (Examples.wants_A_or_B UNDEFINED) eq_refl))).
  apply Exists_cons_tl, Exists_cons_hd. vm_compute. discriminate.
Defined.

(** X5: the loop stops at the first hit and gives up only at the end.  There
    are never more lookups than candidates; every lookup but the last came
    back [UNDEFINED]; the default is returned, or the error raised, only
    after all candidates were looked up; and when fewer lookups than
    candidates were made, the value returned is the answer to the last
    one. *)
Theorem resolve_lookup_budget {C : Type} `{Context C} `{PyFormat}
    (ctx : C) (s : InjectedType.t) :
  let log := calls (run (InjectedType.resolve ctx) s).1 in
  let out := (run (InjectedType.resolve ctx) s).2 in
  length log <= length (InjectedType.types s)
  /\ (forall i cls, log !! i = Some (GetTypeDependency cls) ->
                    S i < length log ->
                    get_type_dependency ctx cls = UNDEFINED)
  /\ (raises out -> log = GetTypeDependency <$> InjectedType.types s)
  /\ (length log < length (InjectedType.types s) ->
      exists cls, last log = Some (GetTypeDependency cls)
                  /\ out = Return (get_type_dependency ctx cls)).
Proof.
  intros log out. subst log out.
  destruct (first_bound ctx (InjectedType.types s))
    as [Hall|(pre & cls & post & Htypes & Hpre & Hcls)].
  - rewrite (resolve_exhausted ctx s Hall). simpl.
    rewrite length_fmap. split; [done|]. split; [|split; [done|lia]].
    intros i c Hi _. apply list_lookup_fmap_Some in Hi as (c' & Heq & Hc').
    injection Heq as <-.
    apply (proj1 (Forall_forall _ _) Hall).
    by apply list_elem_of_lookup_2 with i.
  - rewrite (resolve_found ctx s pre post cls Htypes Hpre Hcls). simpl.
    rewrite length_fmap, Htypes, !length_app. simpl.
    split; [lia|]. split; [|split].
    + intros i c Hi Hlt. apply list_lookup_fmap_Some in Hi as (c' & Heq & Hc').
      injection Heq as <-.
      rewrite lookup_app_l in Hc' by lia.
      apply (proj1 (Forall_forall _ _) Hpre).
      by apply list_elem_of_lookup_2 with i.
    + by intros [e He].
    + intros _. exists cls. split; [|done].
      rewrite fmap_app. apply last_snoc.
Qed.

(** Both registered: one lookup for two candidates, and its answer is the
    value. *)
Lemma resolve_lookup_budget_witness :
  exists cls,
    last (calls (run (InjectedType.resolve (H0 := show) Examples.both)
                     (Examples.wants_A_or_B UNDEFINED)).1)
    = Some (GetTypeDependency cls)
    /\ (run (InjectedType.resolve (H0 := show) Examples.both)
            (Examples.wants_A_or_B UNDEFINED)).2
       = Return (get_type_dependency Examples.both cls).
Proof.
  apply (proj2 (proj2 (proj2
           (resolve_lookup_budget (H0 := show) Examples.both
              (Examples.wants_A_or_B UNDEFINED))))).
  vm_compute. lia.
Defined.

(** ** The diagnostic of a failed resolution *)

Lemma append_nil (x : string) : "" ++ x = x.
Proof. reflexivity. Qed.

Lemma append_cons (c : ascii) (p x : string) :
  String c p ++ x = String c (p ++ x).
Proof. reflexivity. Qed.

Lemma string_length_app (p x : string) :
  String.length (p ++ x) = String.length p + String.length x.
Proof.
  induction p as [|c p IH]; [by rewrite append_nil|].
  rewrite append_cons. simpl. by rewrite IH.
Qed.

Lemma string_prefix_app (p x : string) : String.prefix p (p ++ x) = true.
Proof.
  induction p as [|c p IH]; [rewrite append_nil; by destruct x|].
  rewrite append_cons. simpl. by destruct (ascii_dec c c).
Qed.

Lemma substring_skip (p x : string) (n : nat) :
  String.substring (String.length p) n (p ++ x) = String.substring 0 n x.
Proof.
  induction p as [|c p IH]; [by rewrite append_nil|].
  rewrite append_cons. simpl. exact IH.
Qed.

Lemma substring_front (f x : string) :
  String.substring 0 (String.length f) (f ++ x) = f.
Proof.
  induction f as [|c f IH]; [rewrite append_nil; by destruct x|].
  rewrite append_cons. simpl. by rewrite IH.
Qed.

(** X6: the error of a failed resolution identifies what was asked for.  Its
    second argument is the descriptor's [repr_type]; its message starts with
    "Couldn't resolve injected type(s) ", carries the formatted [repr_type]
    from offset 34 on, and ends 16 characters after it. *)
Theorem missing_error_names_repr {C : Type} `{Context C} `{PyFormat}
    (ctx : C) (s : InjectedType.t) (msg : string) (t : pyobj) :
  (run (InjectedType.resolve ctx) s).2 = Raise (MissingDependencyError msg t) ->
  t = InjectedType.repr_type s
  /\ String.prefix "Couldn't resolve injected type(s) " msg = true
  /\ String.substring 34 (String.length (format_field t)) msg = format_field t
  /\ String.length msg = 34 + String.length (format_field t) + 16.
Proof.
  intros Hraise.
  assert (Hmsg : t = InjectedType.repr_type s
                 /\ msg = InjectedType.missing_message t).
  { destruct (first_bound ctx (InjectedType.types s))
      as [Hall|(pre & cls & post & Htypes & Hpre & Hcls)].
    - rewrite (resolve_exhausted ctx s Hall) in Hraise. simpl in Hraise.
      destruct (is_UNDEFINED (InjectedType.default s)); [|done].
      by injection Hraise as <- <-.
    - by rewrite (resolve_found ctx s pre post cls Htypes Hpre Hcls) in Hraise. }
  destruct Hmsg as [Ht ->]. split; [done|].
  unfold InjectedType.missing_message.
  split; [apply string_prefix_app|]. split.
  - change 34 with (String.length "Couldn't resolve injected type(s) ").
    rewrite substring_skip. apply substring_front.
  - rewrite !string_length_app. simpl. lia.
Qed.

Lemma missing_error_names_repr_witness :
  String.substring 34 18
    "Couldn't resolve injected type(s) typing.Union[A, B] to actual value"
  = "typing.Union[A, B]".
Proof.
  apply (missing_error_names_repr (H0 := show) Examples.nothing
           (Examples.wants_A_or_B UNDEFINED)
           "Couldn't resolve injected type(s) typing.Union[A, B] to actual value"
           (PyType Examples.AorB)).
  vm_compute. reflexivity.
Defined.

(** ** The store: no object is ever rewritten *)

Section StoreFrame.
Context {C : Type} `{Context C} `{PyFormat}.



End StoreFrame.


